(** * ha_inventory: the persisted inventory store

    A shallow embedding of [custom_components/ha_inventory/inventory.py]
    (class [InventoryStore] and its dataclasses) and of the service handlers
    of [custom_components/ha_inventory/__init__.py].

    Conventions.
    - Python values that travel through keyword bundles, dataclass fields and
      the persisted document are terms of [value]; no such value is mutated
      in place, so the copies [asdict] makes are the values themselves.
    - An [Item] lives in the store's dictionary and is changed in place
      there: a method that changes the object it has looked up puts it
      back under its key, also when an exception interrupts it half-way
      (the loop of [async_update_item]).
    - A Python [dict] with [str] keys is an insertion-ordered association
      list ([Dict.t]); a well-formed one has no repeated key ([Dict.wf]).
    - [str] is [string] (the UTF-8 bytes); the two path separators are
      single bytes that occur in no multi-byte sequence, so replacing them
      bytewise is replacing them characterwise.
    - The [Store] gives back on load the document last saved; how it
      encodes it on disk is its own business.
    - Everything the host decides (uuids, the clock, the MIME table, the
      file system's and the network's answers) is read from a [Host]; each
      read advances the world's [tick].
    - An [Item] object has the attributes the dataclass declares as fields
      and those every such object carries besides ([__dict__], [__class__],
      the methods of [object] and of the dataclass machinery: the host's
      Python decides which names).  [hasattr] holds for both.  Of the
      latter, [__class__] takes a class only, so assigning a plain value to
      it is a [TypeError]; an assignment to another one, like a key that is
      not a [str] put into a [Dict[str, ...]], is where the model stops:
      such a run ends as [Unmodelled].
    - The [attachments] of an [Item] are a list of [Attachment] objects.
      Of the plain values only the empty list is such a list: assigning it
      empties the attachments, assigning another value is not followed.
*)

From Stdlib Require Import List String Ascii ZArith Bool Lia.
From Stdlib.Strings Require Import Byte.
Import ListNotations.
Local Open Scope list_scope.
Local Open Scope string_scope.

Set Implicit Arguments.

(** ** Python values *)

#[warnings="-register-all"]
Inductive value : Type :=
| VNone
| VBool (b : bool)
| VInt (n : Z)
| VFloat (bits : Z)            (* the binary64 pattern, 0 <= bits < 2^64 *)
| VStr (s : string)
| VList (l : list value)
| VDict (d : list (string * value)).

(** [bool(v)], as [or] and [not] use it. *)
Definition truthy (v : value) : bool :=
  match v with
  | VNone => false
  | VBool b => b
  | VInt n => negb (n =? 0)%Z
  | VFloat bits => negb (bits mod 2 ^ 63 =? 0)%Z
  | VStr s => negb (s =? "")
  | VList l => match l with [] => false | _ :: _ => true end
  | VDict d => match d with [] => false | _ :: _ => true end
  end.

(** [1.0] as a binary64 pattern. *)
Definition float_one : Z := 0x3FF0000000000000%Z.

Inductive exn : Type :=
| ValueError | TypeError | KeyError | AttributeError | OSError | ClientError.

(** ** Insertion-ordered dictionaries with [str] keys *)

Module Dict.
Section Dict.
Variable V : Type.

Definition t := list (string * V).

Definition empty : t := [].

(** [d.get(k)] *)
Fixpoint get (k : string) (d : t) : option V :=
  match d with
  | [] => None
  | (k', v) :: d' => if k =? k' then Some v else get k d'
  end.

(** [k in d] *)
Definition mem (k : string) (d : t) : bool :=
  match get k d with Some _ => true | None => false end.

(** [d[k] = v]: an existing key keeps its place, a new one goes last. *)
Fixpoint set (k : string) (v : V) (d : t) : t :=
  match d with
  | [] => [(k, v)]
  | (k', v') :: d' => if k =? k' then (k', v) :: d' else (k', v') :: set k v d'
  end.

(** [d.pop(k, None)], the dictionary that is left. *)
Fixpoint pop (k : string) (d : t) : t :=
  match d with
  | [] => []
  | (k', v') :: d' => if k =? k' then d' else (k', v') :: pop k d'
  end.

Definition keys (d : t) : list string := map fst d.
Definition values (d : t) : list V := map snd d.

(** No key occurs twice. *)
Definition wf (d : t) : Prop := NoDup (keys d).

Fixpoint wfb (d : t) : bool :=
  match d with
  | [] => true
  | (k, _) :: d' => negb (mem k d') && wfb d'
  end.
End Dict.
End Dict.

Arguments Dict.empty {V}.

(** ** The dataclasses *)

Module Attachment.
Record t : Type := mk {
  id : value;
  category : value;
  name : value;
  content_type : value;
  path : value;
  uploaded_at : value
}.

Definition fields : list string :=
  ["id"; "category"; "name"; "content_type"; "path"; "uploaded_at"].

(** [asdict(a)] *)
Definition asdict (a : t) : Dict.t value :=
  [("id", id a); ("category", category a); ("name", name a);
   ("content_type", content_type a); ("path", path a);
   ("uploaded_at", uploaded_at a)].
End Attachment.

Module Item.
Record t : Type := mk {
  id : value;
  name : value;
  description : value;
  area_id : value;
  zone_entity_id : value;
  ha_label_ids : value;
  category_id : value;
  quantity : value;
  unit : value;
  purchase_date : value;
  purchase_price : value;
  purchase_currency : value;
  warranty_expires_at : value;
  serial_number : value;
  model_number : value;
  asset_tag : value;
  condition : value;
  archived : value;
  parent_item_id : value;
  custom_fields : value;
  attachments : list Attachment.t;
  notes : value;
  created_at : value;
  updated_at : value
}.

Definition fields : list string :=
  ["id"; "name"; "description"; "area_id"; "zone_entity_id"; "ha_label_ids";
   "category_id"; "quantity"; "unit"; "purchase_date"; "purchase_price";
   "purchase_currency"; "warranty_expires_at"; "serial_number";
   "model_number"; "asset_tag"; "condition"; "archived"; "parent_item_id";
   "custom_fields"; "attachments"; "notes"; "created_at"; "updated_at"].

(** Is [key] the name of a field. *)
Definition is_field (key : string) : bool := existsb (String.eqb key) fields.

(** [item.key = v] for a field [key] other than [attachments]: the field
    takes [v], every other field keeps its value. *)
Definition set_field (it : t) (key : string) (v : value) : t :=
  let put f old := if key =? f then v else old in
  {| id := put "id" (id it);
     name := put "name" (name it);
     description := put "description" (description it);
     area_id := put "area_id" (area_id it);
     zone_entity_id := put "zone_entity_id" (zone_entity_id it);
     ha_label_ids := put "ha_label_ids" (ha_label_ids it);
     category_id := put "category_id" (category_id it);
     quantity := put "quantity" (quantity it);
     unit := put "unit" (unit it);
     purchase_date := put "purchase_date" (purchase_date it);
     purchase_price := put "purchase_price" (purchase_price it);
     purchase_currency := put "purchase_currency" (purchase_currency it);
     warranty_expires_at := put "warranty_expires_at" (warranty_expires_at it);
     serial_number := put "serial_number" (serial_number it);
     model_number := put "model_number" (model_number it);
     asset_tag := put "asset_tag" (asset_tag it);
     condition := put "condition" (condition it);
     archived := put "archived" (archived it);
     parent_item_id := put "parent_item_id" (parent_item_id it);
     custom_fields := put "custom_fields" (custom_fields it);
     attachments := attachments it;
     notes := put "notes" (notes it);
     created_at := put "created_at" (created_at it);
     updated_at := put "updated_at" (updated_at it) |}.

(** [item.attachments = atts] *)
Definition set_attachments (it : t) (atts : list Attachment.t) : t :=
  {| id := id it; name := name it; description := description it;
     area_id := area_id it; zone_entity_id := zone_entity_id it;
     ha_label_ids := ha_label_ids it; category_id := category_id it;
     quantity := quantity it; unit := unit it;
     purchase_date := purchase_date it; purchase_price := purchase_price it;
     purchase_currency := purchase_currency it;
     warranty_expires_at := warranty_expires_at it;
     serial_number := serial_number it; model_number := model_number it;
     asset_tag := asset_tag it; condition := condition it;
     archived := archived it; parent_item_id := parent_item_id it;
     custom_fields := custom_fields it;
     attachments := atts;
     notes := notes it; created_at := created_at it;
     updated_at := updated_at it |}.

(** How an assignment, or a run of assignments, to an [Item] ends: with
    the object changed in place; with an exception, the object being what
    the assignments before have made of it; or outside of what the record
    shows. *)
Inductive assignment : Type :=
| Assigned (it : t)
| Refused (e : exn) (it : t)
| NotFollowed.

(** [setattr(item, key, v)].  A field takes [v] whatever its declared
    type, [attachments] too: there the empty list empties the attachments,
    and a value that is no list of [Attachment] objects is not followed.
    [__class__] takes a class only, which no plain value is.  An
    assignment to any other name (one of the attributes every object
    carries, or a new one) is not followed. *)
Definition setattr (it : t) (key : string) (v : value) : assignment :=
  if key =? "attachments" then
    match v with
    | VList [] => Assigned (set_attachments it [])
    | _ => NotFollowed
    end
  else if is_field key then Assigned (set_field it key v)
  else if key =? "__class__" then Refused TypeError it
  else NotFollowed.

(** [item.attachments.append(a)] *)
Definition append_attachment (it : t) (a : Attachment.t) : t :=
  {| id := id it; name := name it; description := description it;
     area_id := area_id it; zone_entity_id := zone_entity_id it;
     ha_label_ids := ha_label_ids it; category_id := category_id it;
     quantity := quantity it; unit := unit it;
     purchase_date := purchase_date it; purchase_price := purchase_price it;
     purchase_currency := purchase_currency it;
     warranty_expires_at := warranty_expires_at it;
     serial_number := serial_number it; model_number := model_number it;
     asset_tag := asset_tag it; condition := condition it;
     archived := archived it; parent_item_id := parent_item_id it;
     custom_fields := custom_fields it;
     attachments := (attachments it ++ [a])%list;
     notes := notes it; created_at := created_at it;
     updated_at := updated_at it |}.

(** [asdict(item)] with [item_dict["attachments"]] rebuilt as
    [async_save] does. *)
Definition asdict (it : t) : Dict.t value :=
  [("id", id it); ("name", name it); ("description", description it);
   ("area_id", area_id it); ("zone_entity_id", zone_entity_id it);
   ("ha_label_ids", ha_label_ids it); ("category_id", category_id it);
   ("quantity", quantity it); ("unit", unit it);
   ("purchase_date", purchase_date it);
   ("purchase_price", purchase_price it);
   ("purchase_currency", purchase_currency it);
   ("warranty_expires_at", warranty_expires_at it);
   ("serial_number", serial_number it); ("model_number", model_number it);
   ("asset_tag", asset_tag it); ("condition", condition it);
   ("archived", archived it); ("parent_item_id", parent_item_id it);
   ("custom_fields", custom_fields it);
   ("attachments",
    VList (map (fun a => VDict (Attachment.asdict a)) (attachments it)));
   ("notes", notes it); ("created_at", created_at it);
   ("updated_at", updated_at it)].

(** [getattr(item, key)], the attachment list shown as [asdict] shows
    it. *)
Definition getattr (it : t) (key : string) : option value :=
  Dict.get key (asdict it).
End Item.

Module Category.
Record t : Type := mk {
  id : value;
  name : value;
  description : value;
  parent_id : value;
  created_at : value;
  updated_at : value
}.

Definition fields : list string :=
  ["id"; "name"; "description"; "parent_id"; "created_at"; "updated_at"].

Definition asdict (c : t) : Dict.t value :=
  [("id", id c); ("name", name c); ("description", description c);
   ("parent_id", parent_id c); ("created_at", created_at c);
   ("updated_at", updated_at c)].
End Category.

(** [_StoredData], a [TypedDict] with [total=False]: either key may be
    missing. *)
Module StoredData.
Record t : Type := mk {
  items : option (list (Dict.t value));
  categories : option (list (Dict.t value))
}.
End StoredData.

(** ** Strings of the standard library *)

Definition slash : ascii := "/"%char.
Definition backslash : ascii := ascii_of_nat 92.
Definition underscore : ascii := "_"%char.

(** [c in s] for a one-character [c] *)
Fixpoint str_contains (c : ascii) (s : string) : bool :=
  match s with
  | EmptyString => false
  | String c' s' => Ascii.eqb c c' || str_contains c s'
  end.

(** [s.replace(old, new)] for one-character [old] and [new] *)
Fixpoint str_replace (old new : ascii) (s : string) : string :=
  match s with
  | EmptyString => EmptyString
  | String c s' =>
      String (if Ascii.eqb c old then new else c) (str_replace old new s')
  end.

(** [s.split(";", 1)[0]] *)
Fixpoint before_semicolon (s : string) : string :=
  match s with
  | EmptyString => EmptyString
  | String c s' =>
      if Ascii.eqb c ";"%char then EmptyString
      else String c (before_semicolon s')
  end.

(** [s.endswith("/")] *)
Fixpoint ends_with_slash (s : string) : bool :=
  match s with
  | EmptyString => false
  | String c EmptyString => Ascii.eqb c slash
  | String _ s' => ends_with_slash s'
  end.

(** [os.path.join(a, b)] of [posixpath] *)
Definition path_join (a b : string) : string :=
  match b with
  | String c _ =>
      if Ascii.eqb c slash then b
      else if (a =? "") || ends_with_slash a then a ++ b
      else a ++ "/" ++ b
  | EmptyString =>
      if (a =? "") || ends_with_slash a then a else a ++ "/"
  end.

Definition hex_digit (n : Z) : ascii :=
  match String.get (Z.to_nat n) "0123456789abcdef" with
  | Some c => c
  | None => "0"%char
  end.

(** The [k] low hexadecimal digits of [u], most significant first. *)
Fixpoint hex_digits (k : nat) (u : Z) : string :=
  match k with
  | O => EmptyString
  | S k' => hex_digits k' (u / 16) ++ String (hex_digit (u mod 16)) EmptyString
  end.

(** [u.hex] and [str(u)] of a [uuid.UUID] with integer value [u] *)
Definition uuid_hex (u : Z) : string := hex_digits 32 (u mod 2 ^ 128).

Definition uuid_str (u : Z) : string :=
  let x := uuid_hex u in
  substring 0 8 x ++ "-" ++ substring 8 4 x ++ "-" ++ substring 12 4 x
  ++ "-" ++ substring 16 4 x ++ "-" ++ substring 20 12 x.

(** ** The host and the world *)

Inductive http_result : Type :=
| Response (status : Z) (body : list byte) (content_type : option string)
| NoResponse.

Record Host : Type := {
  uuid4 : nat -> Z;                        (* [uuid.uuid4()], as an integer *)
  utcnow_iso : nat -> string;              (* [datetime.now(utc).isoformat()] *)
  config_path : string -> string;          (* [hass.config.path] *)
  guess_extension : string -> option string;       (* [mimetypes] *)
  splitext : string -> string * string;            (* [os.path.splitext] *)
  io_ok : nat -> string -> bool;           (* does a file-system call succeed *)
  object_attr : string -> bool;            (* attributes of any [Item] object
                                              that are not fields *)
  http_get : nat -> string -> http_result  (* [session.get(url)], read whole *)
}.

Record world : Type := mkWorld {
  items : Dict.t Item.t;                   (* [self.items] *)
  categories : Dict.t Category.t;          (* [self.categories] *)
  persisted : option StoredData.t;         (* the document [Store] holds *)
  writes : nat;                            (* [Store.async_save] calls so far *)
  files : Dict.t (list byte);              (* files written, by path *)
  tick : nat                               (* host reads so far *)
}.

Definition set_items (f : Dict.t Item.t -> Dict.t Item.t) (w : world) : world :=
  mkWorld (f (items w)) (categories w) (persisted w) (writes w) (files w)
          (tick w).

Definition set_categories (f : Dict.t Category.t -> Dict.t Category.t)
    (w : world) : world :=
  mkWorld (items w) (f (categories w)) (persisted w) (writes w) (files w)
          (tick w).

Definition store_write (d : StoredData.t) (w : world) : world :=
  mkWorld (items w) (categories w) (Some d) (S (writes w)) (files w) (tick w).

Definition file_write (p : string) (c : list byte) (w : world) : world :=
  mkWorld (items w) (categories w) (persisted w) (writes w)
          (Dict.set p c (files w)) (tick w).

Definition next_tick (w : world) : world :=
  mkWorld (items w) (categories w) (persisted w) (writes w) (files w)
          (S (tick w)).

(** [InventoryStore(hass)] over the same [Store], file system and host. *)
Definition fresh_store (w : world) : world :=
  mkWorld Dict.empty Dict.empty (persisted w) (writes w) (files w) (tick w).

(** ** Runs: state, exceptions *)

(** How a call ends.  [Unmodelled] is a run that has put a key that is not
    a [str] (but hashable) into [Dict[str, Item]] or [Dict[str, Category]],
    or has made an assignment that [Item.setattr] does not follow: it is
    not followed further. *)
Inductive outcome (A : Type) : Type :=
| Returned (a : A) (w : world)
| Raised (e : exn) (w : world)
| Unmodelled.

Arguments Returned {A} a w.
Arguments Raised {A} e w.
Arguments Unmodelled {A}.

Definition M (A : Type) : Type := world -> outcome A.

Definition ret {A} (a : A) : M A := fun w => Returned a w.

Definition bind {A B} (m : M A) (f : A -> M B) : M B :=
  fun w =>
    match m w with
    | Returned a w' => f a w'
    | Raised e w' => Raised e w'
    | Unmodelled => Unmodelled
    end.

Definition raise {A} (e : exn) : M A := fun w => Raised e w.
Definition unmodelled {A} : M A := fun _ => Unmodelled.
Definition get_world : M world := fun w => Returned w w.
Definition modify (f : world -> world) : M unit := fun w => Returned tt (f w).

Declare Scope run_scope.
Delimit Scope run_scope with run.
Notation "x <- m ;; k" := (bind m (fun x => k))
  (at level 100, m at next level, right associativity) : run_scope.
Notation "m ;; k" := (bind m (fun _ => k))
  (at level 100, right associativity) : run_scope.
Local Open Scope run_scope.

(** [for x in xs: body(x)] *)
Fixpoint for_each {A} (xs : list A) (body : A -> M unit) : M unit :=
  match xs with
  | [] => ret tt
  | x :: xs' => body x ;; for_each xs' body
  end.

(** [[f(x) for x in xs]] *)
Fixpoint map_each {A B} (xs : list A) (f : A -> M B) : M (list B) :=
  match xs with
  | [] => ret []
  | x :: xs' => y <- f x ;; ys <- map_each xs' f ;; ret (y :: ys)
  end.

Definition or_default {A} (o : option A) (d : A) : A :=
  match o with Some a => a | None => d end.

(** ** InventoryStore *)

Section InventoryStore.
Variable h : Host.

(** One read of the host at the current tick. *)
Definition host_read {A} (f : nat -> A) : M A :=
  fun w => Returned (f (tick w)) (next_tick w).

Definition _now_iso : M string := host_read (utcnow_iso h).
Definition uuid_uuid4 : M Z := host_read (uuid4 h).

(** A file-system call on [path]: it goes through or raises [OSError]. *)
Definition fs_call (path : string) : M unit :=
  ok <- host_read (fun t => io_ok h t path) ;;
  if ok then ret tt else raise OSError.

(** Keyword binding of a dataclass constructor: a key that names no field
    is a [TypeError]. *)
Definition unexpected (fields : list string) (kw : Dict.t value) : bool :=
  existsb (fun k => negb (existsb (String.eqb k) fields)) (Dict.keys kw).

(** A field with [default_factory=_now_iso]. *)
Definition now_unless_given (o : option value) : M value :=
  match o with
  | Some v => ret v
  | None => t <- _now_iso ;; ret (VStr t)
  end.

(** [Attachment] called with the keywords [a] *)
Definition Attachment_init (a : value) : M Attachment.t :=
  match a with
  | VDict kw =>
      if unexpected Attachment.fields kw then raise TypeError else
      match Dict.get "id" kw, Dict.get "category" kw, Dict.get "name" kw,
            Dict.get "content_type" kw, Dict.get "path" kw,
            Dict.get "uploaded_at" kw with
      | Some i, Some c, Some n, Some ct, Some p, Some u =>
          ret (Attachment.mk i c n ct p u)
      | _, _, _, _, _, _ => raise TypeError
      end
  | _ => raise TypeError
  end.

(** [Item] called with the keywords [kw], where the [attachments]
    keyword, if any, is the list [atts] of [Attachment] objects (kept
    apart from the plain values of [kw]). *)
Definition Item_init (kw : Dict.t value) (atts : list Attachment.t)
    : M Item.t :=
  if unexpected Item.fields kw then raise TypeError else
  match Dict.get "id" kw, Dict.get "name" kw with
  | Some i, Some n =>
      let arg k d := or_default (Dict.get k kw) d in
      c <- now_unless_given (Dict.get "created_at" kw) ;;
      u <- now_unless_given (Dict.get "updated_at" kw) ;;
      ret {| Item.id := i;
             Item.name := n;
             Item.description := arg "description" (VStr "");
             Item.area_id := arg "area_id" VNone;
             Item.zone_entity_id := arg "zone_entity_id" VNone;
             Item.ha_label_ids := arg "ha_label_ids" (VList []);
             Item.category_id := arg "category_id" VNone;
             Item.quantity := arg "quantity" (VFloat float_one);
             Item.unit := arg "unit" (VStr "pcs");
             Item.purchase_date := arg "purchase_date" VNone;
             Item.purchase_price := arg "purchase_price" VNone;
             Item.purchase_currency := arg "purchase_currency" VNone;
             Item.warranty_expires_at := arg "warranty_expires_at" VNone;
             Item.serial_number := arg "serial_number" VNone;
             Item.model_number := arg "model_number" VNone;
             Item.asset_tag := arg "asset_tag" VNone;
             Item.condition := arg "condition" VNone;
             Item.archived := arg "archived" (VBool false);
             Item.parent_item_id := arg "parent_item_id" VNone;
             Item.custom_fields := arg "custom_fields" (VDict []);
             Item.attachments := atts;
             Item.notes := arg "notes" (VStr "");
             Item.created_at := c;
             Item.updated_at := u |}
  | _, _ => raise TypeError
  end.

(** [Category] called with the keywords [kw] *)
Definition Category_init (kw : Dict.t value) : M Category.t :=
  if unexpected Category.fields kw then raise TypeError else
  match Dict.get "id" kw, Dict.get "name" kw with
  | Some i, Some n =>
      let arg k d := or_default (Dict.get k kw) d in
      c <- now_unless_given (Dict.get "created_at" kw) ;;
      u <- now_unless_given (Dict.get "updated_at" kw) ;;
      ret {| Category.id := i;
             Category.name := n;
             Category.description := arg "description" (VStr "");
             Category.parent_id := arg "parent_id" VNone;
             Category.created_at := c;
             Category.updated_at := u |}
  | _, _ => raise TypeError
  end.

(** [self.items[key] = item]: lists and dicts are unhashable. *)
Definition items_setitem (key : value) (item : Item.t) : M unit :=
  match key with
  | VStr k => modify (set_items (Dict.set k item))
  | VList _ | VDict _ => raise TypeError
  | _ => unmodelled
  end.

(** [self.categories[key] = cat] *)
Definition categories_setitem (key : value) (cat : Category.t) : M unit :=
  match key with
  | VStr k => modify (set_categories (Dict.set k cat))
  | VList _ | VDict _ => raise TypeError
  | _ => unmodelled
  end.

(** [for a in v]: what iterating a value yields. *)
Definition iterate (v : value) : M (list value) :=
  match v with
  | VList l => ret l
  | VDict d => ret (map VStr (Dict.keys d))
  | VStr s =>
      ret (map (fun c => VStr (String c EmptyString)) (list_ascii_of_string s))
  | _ => raise TypeError
  end.

Definition load_item (raw_item : Dict.t value) : M unit :=
  let item_data := raw_item in
  raw <- iterate (or_default (Dict.get "attachments" item_data) (VList [])) ;;
  attachments <- map_each raw Attachment_init ;;
  item <- Item_init (Dict.pop "attachments" item_data) attachments ;;
  items_setitem (Item.id item) item.

Definition load_category (raw_cat : Dict.t value) : M unit :=
  cat <- Category_init raw_cat ;;
  categories_setitem (Category.id cat) cat.

Definition async_load : M unit :=
  w <- get_world ;;
  let data := or_default (persisted w) (StoredData.mk None None) in
  for_each (or_default (StoredData.items data) []) load_item ;;
  for_each (or_default (StoredData.categories data) []) load_category.

(** The document [async_save] builds. *)
Definition document (w : world) : StoredData.t :=
  {| StoredData.items := Some (map Item.asdict (Dict.values (items w)));
     StoredData.categories :=
       Some (map Category.asdict (Dict.values (categories w))) |}.

Definition async_save : M unit :=
  w <- get_world ;;
  modify (store_write (document w)).

(** *** Item CRUD *)

Definition async_add_item (data : Dict.t value) : M Item.t :=
  let given := or_default (Dict.get "id" data) VNone in
  item_id <- (if truthy given then ret given
              else u <- uuid_uuid4 ;; ret (VStr (uuid_str u))) ;;
  let data := Dict.set "id" item_id data in
  if negb (Dict.mem "name" data) then raise ValueError else
  let data := if Dict.mem "attachments" data
              then Dict.pop "attachments" data else data in
  item <- Item_init data [] ;;
  items_setitem (Item.id item) item ;;
  async_save ;;
  ret item.

(** [hasattr(item, key)] *)
Definition hasattr (key : string) : bool :=
  Item.is_field key || object_attr h key.

(** No key names an attribute of the object that is not a field. *)
Definition plain_keys (kw : Dict.t value) : bool :=
  forallb (fun k => Item.is_field k || negb (object_attr h k)) (Dict.keys kw).

(** The body of the loop over [changes.items()]: two tests that
    [continue], then [setattr]. *)
Definition apply_change (item : Item.t) (change : string * value)
    : Item.assignment :=
  let (key, v) := change in
  if negb (hasattr key) then Item.Assigned item
  else if key =? "attachments" then Item.Assigned item
  else Item.setattr item key v.

(** [for key, value in changes.items(): ...]; the loop ends with the
    first assignment that does not go through. *)
Fixpoint apply_changes (changes : Dict.t value) (item : Item.t)
    : Item.assignment :=
  match changes with
  | [] => Item.Assigned item
  | change :: changes' =>
      match apply_change item change with
      | Item.Assigned item' => apply_changes changes' item'
      | Item.Refused e item' => Item.Refused e item'
      | Item.NotFollowed => Item.NotFollowed
      end
  end.

(** An [Item] object is always truthy, so [if not item] is the test for
    a missing key.  The object updated in place stays under its key; when
    an assignment raises, the assignments made before it stay in the
    object, and nothing is saved. *)
Definition async_update_item (item_id : string) (changes : Dict.t value)
    : M (option Item.t) :=
  w <- get_world ;;
  match Dict.get item_id (items w) with
  | None => ret None
  | Some item =>
      match apply_changes changes item with
      | Item.NotFollowed => unmodelled
      | Item.Refused e item =>
          modify (set_items (Dict.set item_id item)) ;;
          raise e
      | Item.Assigned item =>
          t <- _now_iso ;;
          let item := Item.set_field item "updated_at" (VStr t) in
          modify (set_items (Dict.set item_id item)) ;;
          async_save ;;
          ret (Some item)
      end
  end.

Definition async_delete_item (item_id : string) : M bool :=
  w <- get_world ;;
  if negb (Dict.mem item_id (items w)) then ret false else
  modify (set_items (Dict.pop item_id)) ;;
  async_save ;;
  ret true.

Definition async_move_item_area (item_id : string) (area_id : value)
    : M (option Item.t) :=
  w <- get_world ;;
  match Dict.get item_id (items w) with
  | None => ret None
  | Some item =>
      let item := Item.set_field item "area_id" area_id in
      t <- _now_iso ;;
      let item := Item.set_field item "updated_at" (VStr t) in
      modify (set_items (Dict.set item_id item)) ;;
      async_save ;;
      ret (Some item)
  end.

Definition async_set_item_zone (item_id : string) (zone_entity_id : value)
    : M (option Item.t) :=
  w <- get_world ;;
  match Dict.get item_id (items w) with
  | None => ret None
  | Some item =>
      let item := Item.set_field item "zone_entity_id" zone_entity_id in
      t <- _now_iso ;;
      let item := Item.set_field item "updated_at" (VStr t) in
      modify (set_items (Dict.set item_id item)) ;;
      async_save ;;
      ret (Some item)
  end.

(** *** Photo handling *)

Definition _ensure_photo_dir : M string :=
  let photo_dir := config_path h "www/ha_inventory" in
  fs_call photo_dir ;;
  ret photo_dir.

(** [x or d] on an optional string: [None] and the empty string are
    falsy. *)
Definition str_or (x : option string) (d : string) : string :=
  match x with
  | Some s => if s =? "" then d else s
  | None => d
  end.

(** Lines 207 to 216: the MIME type, the extension and the file name. *)
Definition photo_mime_type (mime_type : option string) : string :=
  str_or mime_type "image/jpeg".

Definition photo_ext (suggested_filename : option string)
    (mime_type : string) : string :=
  let ext := str_or (guess_extension h (before_semicolon mime_type)) ".jpg" in
  match suggested_filename with
  | Some f =>
      if negb (f =? "") && str_contains "."%char f
      then str_or (Some (snd (splitext h f))) ext
      else ext
  | None => ext
  end.

Definition sanitize (filename : string) : string :=
  str_replace backslash underscore (str_replace slash underscore filename).

Definition photo_filename (item_id : string)
    (suggested_filename : option string) (ext : string) : M string :=
  filename <- match suggested_filename with
              | Some f =>
                  if negb (f =? "") then ret f
                  else u <- uuid_uuid4 ;;
                       ret (item_id ++ "-" ++ uuid_hex u ++ ext)
              | None =>
                  u <- uuid_uuid4 ;;
                  ret (item_id ++ "-" ++ uuid_hex u ++ ext)
              end ;;
  ret (sanitize filename).

(** [with open(file_path, "wb") as f: f.write(content)] *)
Definition write_file (file_path : string) (content : list byte) : M unit :=
  fs_call file_path ;;
  modify (file_write file_path content).

Definition async_add_item_photo_from_bytes (item_id : string)
    (content : list byte) (suggested_filename : option string)
    (mime_type : option string) : M (option Item.t) :=
  w <- get_world ;;
  match Dict.get item_id (items w) with
  | None => ret None
  | Some item =>
      photo_dir <- _ensure_photo_dir ;;
      let mime_type := photo_mime_type mime_type in
      let ext := photo_ext suggested_filename mime_type in
      filename <- photo_filename item_id suggested_filename ext ;;
      let file_path := path_join photo_dir filename in
      write_file file_path content ;;
      u <- uuid_uuid4 ;;
      t <- _now_iso ;;
      let attachment :=
        {| Attachment.id := VStr (uuid_str u);
           Attachment.category := VStr "photo";
           Attachment.name := VStr filename;
           Attachment.content_type := VStr mime_type;
           Attachment.path := VStr ("/local/ha_inventory/" ++ filename);
           Attachment.uploaded_at := VStr t |} in
      let item := Item.append_attachment item attachment in
      t' <- _now_iso ;;
      let item := Item.set_field item "updated_at" (VStr t') in
      modify (set_items (Dict.set item_id item)) ;;
      async_save ;;
      ret (Some item)
  end.

(** [session.get(image_url)]: a response read whole, or the client's
    exception. *)
Definition session_get (image_url : string)
    : M (Z * list byte * option string) :=
  r <- host_read (fun t => http_get h t image_url) ;;
  match r with
  | Response status body content_type => ret (status, body, content_type)
  | NoResponse => raise ClientError
  end.

Definition async_add_item_photo_from_url (item_id : string)
    (image_url : string) (suggested_filename : option string)
    : M (option Item.t) :=
  w <- get_world ;;
  match Dict.get item_id (items w) with
  | None => ret None
  | Some _ =>
      resp <- session_get image_url ;;
      let '(status, content, content_type) := resp in
      if negb (status =? 200)%Z then ret None else
      let mime_type := or_default content_type "image/jpeg" in
      async_add_item_photo_from_bytes item_id content suggested_filename
                                      (Some mime_type)
  end.

(** *** The service handlers of [async_setup] *)

(** Calling a method with the keywords [kw]: a keyword that names one of
    the parameters already bound ([self], or a positional one) is a
    [TypeError]. *)
Definition binds_twice (bound : list string) (kw : Dict.t value) : bool :=
  existsb (fun p => Dict.mem p kw) bound.

Definition handle_add_item (call_data : Dict.t value) : M unit :=
  if binds_twice ["self"] call_data then raise TypeError else
  async_add_item call_data ;; ret tt.

(** [self.items.get(key)] for a key of any type: the keys held are [str],
    so another hashable key finds nothing, and a list or dict is
    unhashable. *)
Definition with_item_key {A} (key : value) (missing : A)
    (call : string -> M A) : M A :=
  match key with
  | VStr k => call k
  | VList _ | VDict _ => raise TypeError
  | _ => ret missing
  end.

Definition handle_update_item (call_data : Dict.t value) : M unit :=
  match Dict.get "id" call_data with
  | None => raise KeyError
  | Some item_id =>
      let changes := Dict.pop "id" call_data in
      if binds_twice ["self"; "item_id"] changes then raise TypeError else
      with_item_key item_id None
        (fun k => async_update_item k changes) ;;
      ret tt
  end.

Definition handle_delete_item (call_data : Dict.t value) : M unit :=
  match Dict.get "id" call_data with
  | None => raise KeyError
  | Some item_id =>
      with_item_key item_id false async_delete_item ;;
      ret tt
  end.
End InventoryStore.

(** ** Composite runs and state predicates *)

(** [async_save], then [async_load] into a new [InventoryStore] over the
    same [Store]. *)
Definition save_then_load (h : Host) : M unit :=
  fun w =>
    match async_save w with
    | Returned _ w1 => async_load h (fresh_store w1)
    | Raised e w1 => Raised e w1
    | Unmodelled => Unmodelled
    end.

(** Every record sits under its own [id]. *)
Definition keyed_by_id (w : world) : Prop :=
  (forall k it, In (k, it) (items w) -> Item.id it = VStr k) /\
  (forall k c, In (k, c) (categories w) -> Category.id c = VStr k).

(** Nothing of the store, of the persisted document or of the files has
    changed (the host may have been read). *)
Definition same_store (w w' : world) : Prop :=
  items w' = items w /\ categories w' = categories w /\
  persisted w' = persisted w /\ writes w' = writes w /\ files w' = files w.

(** One [add_item_photo_from_bytes] call's arguments. *)
Record photo_call : Type := {
  content : list byte;
  suggested_filename : option string;
  mime_type : option string
}.

(** [calls] made one after the other on [item_id], each of them returning
    the item; [None] as soon as one does not. *)
Fixpoint photo_adds (h : Host) (item_id : string) (calls : list photo_call)
    (w : world) : option world :=
  match calls with
  | [] => Some w
  | c :: calls' =>
      match async_add_item_photo_from_bytes h item_id (content c)
              (suggested_filename c) (mime_type c) w with
      | Returned (Some _) w' => photo_adds h item_id calls' w'
      | _ => None
      end
  end.

(** The directory part of [os.path.join(photo_dir, filename)] for a
    relative [filename]. *)
Definition dir_prefix (photo_dir : string) : string :=
  if (photo_dir =? "") || ends_with_slash photo_dir then photo_dir
  else photo_dir ++ "/".

(** The name [async_add_item_photo_from_bytes] starts from, before the
    separators are replaced, when called at tick [t]. *)
Definition raw_filename (h : Host) (t : nat) (item_id : string)
    (suggested : option string) (mime : option string) : string :=
  let generated :=
    item_id ++ "-" ++ uuid_hex (uuid4 h (S t))
    ++ photo_ext h suggested (photo_mime_type mime) in
  str_or suggested generated.

(** Is [c] one of the two path separators, and what replaces it. *)
Definition is_separator (c : ascii) : bool :=
  Ascii.eqb c slash || Ascii.eqb c backslash.

Definition sanitize_char (c : ascii) : ascii :=
  if is_separator c then underscore else c.

(** The attachment a photo add records. *)
Definition photo_attachment (filename mime : string) (u : Z) (t : string)
    : Attachment.t :=
  {| Attachment.id := VStr (uuid_str u);
     Attachment.category := VStr "photo";
     Attachment.name := VStr filename;
     Attachment.content_type := VStr mime;
     Attachment.path := VStr ("/local/ha_inventory/" ++ filename);
     Attachment.uploaded_at := VStr t |}.

(** *** Statements of the specification the code does not meet, as worded *)

(** Save then load gives back the same items and categories maps (as
    Python compares dicts: key by key). *)
Definition roundtrip_identical (h : Host) (w : world) : Prop :=
  exists w',
    save_then_load h w = Returned tt w' /\
    (forall k, Dict.get k (items w') = Dict.get k (items w)) /\
    (forall k, Dict.get k (categories w') = Dict.get k (categories w)).

(** [update_item] with a change set whose keys are each no field of
    [Item], or [attachments], returns the item with every field but
    [updated_at] as it was. *)
Definition update_ignores (h : Host) (w : world) (item_id : string)
    (changes : Dict.t value) : Prop :=
  forall item,
    Dict.get item_id (items w) = Some item ->
    Forall (fun kv => Item.is_field (fst kv) = false
                      \/ fst kv = "attachments") changes ->
    exists item' w',
      async_update_item h item_id changes w = Returned (Some item') w' /\
      Item.attachments item' = Item.attachments item /\
      forall key, key <> "updated_at" ->
                  Item.getattr item' key = Item.getattr item key.

(** [update_item] leaves the [id] of the stored item as it was. *)
Definition update_keeps_id (h : Host) (w : world) (item_id : string)
    (changes : Dict.t value) : Prop :=
  forall item, Dict.get item_id (items w) = Some item ->
  exists r w' item',
    async_update_item h item_id changes w = Returned r w' /\
    Dict.get item_id (items w') = Some item' /\
    Item.id item' = Item.id item.

(** [add_item] with the id of a stored item puts the new record in its
    place. *)
Definition add_replaces (h : Host) (w : world) (data : Dict.t value) : Prop :=
  forall k n old,
    Dict.get "id" data = Some (VStr k) -> Dict.get "name" data = Some n ->
    Dict.get k (items w) = Some old ->
    exists item w',
      async_add_item h data w = Returned item w' /\
      Dict.get k (items w') = Some item /\ Item.name item = n.

(** ** A concrete host and concrete stores *)

(** What [dir] lists on an instance of a dataclass besides its fields
    (CPython 3.12). *)
Definition cpython_object_attrs : list string :=
  ["__annotations__"; "__class__"; "__dataclass_fields__";
   "__dataclass_params__"; "__delattr__"; "__dict__"; "__dir__"; "__doc__";
   "__eq__"; "__format__"; "__ge__"; "__getattribute__"; "__getstate__";
   "__gt__"; "__hash__"; "__init__"; "__init_subclass__"; "__le__"; "__lt__";
   "__match_args__"; "__module__"; "__ne__"; "__new__"; "__reduce__";
   "__reduce_ex__"; "__repr__"; "__setattr__"; "__sizeof__"; "__str__";
   "__subclasshook__"; "__weakref__"].

Definition demo_host : Host :=
  {| uuid4 := fun t => (0x1234567890abcdef + Z.of_nat t)%Z;
     utcnow_iso := fun t => "2024-05-01T10:00:" ++ hex_digits 2 (Z.of_nat t);
     config_path := fun p => "/config/" ++ p;
     guess_extension :=
       fun m => if m =? "image/png" then Some ".png"
                else if m =? "image/jpeg" then Some ".jpg" else None;
     splitext := fun f => (f, "");
     io_ok := fun _ _ => true;
     object_attr := fun k => existsb (String.eqb k) cpython_object_attrs;
     http_get :=
       fun _ url => if url =? "http://cam/ok"
                    then Response 200 [x42; x4d] (Some "image/png")
                    else Response 404 [] None |}.

Definition item_named (i n : string) (atts : list Attachment.t) : Item.t :=
  {| Item.id := VStr i; Item.name := VStr n; Item.description := VStr "";
     Item.area_id := VNone; Item.zone_entity_id := VNone;
     Item.ha_label_ids := VList []; Item.category_id := VNone;
     Item.quantity := VFloat float_one; Item.unit := VStr "pcs";
     Item.purchase_date := VNone; Item.purchase_price := VNone;
     Item.purchase_currency := VNone; Item.warranty_expires_at := VNone;
     Item.serial_number := VNone; Item.model_number := VNone;
     Item.asset_tag := VNone; Item.condition := VNone;
     Item.archived := VBool false; Item.parent_item_id := VNone;
     Item.custom_fields := VDict []; Item.attachments := atts;
     Item.notes := VStr ""; Item.created_at := VStr "2024-04-30T08:00:00";
     Item.updated_at := VStr "2024-04-30T08:00:00" |}.

Definition drill_photo : Attachment.t :=
  {| Attachment.id := VStr "att-1"; Attachment.category := VStr "photo";
     Attachment.name := VStr "drill.jpg";
     Attachment.content_type := VStr "image/jpeg";
     Attachment.path := VStr "/local/ha_inventory/drill.jpg";
     Attachment.uploaded_at := VStr "2024-04-30T09:00:00" |}.

Definition tools : Category.t :=
  {| Category.id := VStr "tools"; Category.name := VStr "Tools";
     Category.description := VStr ""; Category.parent_id := VNone;
     Category.created_at := VStr "2024-04-30T08:00:00";
     Category.updated_at := VStr "2024-04-30T08:00:00" |}.

Definition empty_world : world := mkWorld [] [] None 0 [] 0.

(** One item, [a], with one photo, and one category. *)
Definition drill_world : world :=
  mkWorld [("a", item_named "a" "Drill" [drill_photo])] [("tools", tools)]
          None 0 [] 0.

(** One item without photos. *)
Definition saw_world : world :=
  mkWorld [("s", item_named "s" "Saw" [])] [] None 0 [] 0.

(** The item stored under [a] carries the id [b]. *)
Definition renamed_world : world :=
  mkWorld [("a", item_named "b" "Drill" [])] [] None 0 [] 0.

Definition drill : Item.t := item_named "a" "Drill" [drill_photo].
Definition saw : Item.t := item_named "s" "Saw" [].

(** Change sets and bundles. *)
Definition ignored_changes : Dict.t value :=
  [("colour", VStr "red"); ("attachments", VList [])].

Definition rename_changes : Dict.t value := [("id", VStr "b")].

(** No field of [Item], yet an attribute of every object. *)
Definition class_changes : Dict.t value := [("__class__", VStr "Item")].

Definition update_call : Dict.t value :=
  [("id", VStr "a"); ("quantity", VInt 2); ("colour", VStr "red");
   ("attachments", VList [])].

Definition nameless_bundle : Dict.t value :=
  [("id", VStr "x"); ("unit", VStr "kg")].

Definition replacing_bundle : Dict.t value :=
  [("id", VStr "a"); ("name", VStr "Saw")].

Definition empty_id_bundle : Dict.t value :=
  [("id", VStr ""); ("name", VStr "Saw")].

Definition bundle_with_unknown_key : Dict.t value :=
  [("id", VStr "a"); ("name", VStr "Saw"); ("colour", VStr "red")].

(** A suggested file name that tries to leave the photo directory, with
    both separators. *)
Definition traversal_name : string :=
  "../../etc/cron.d/job" ++ String backslash "x.png".

Definition two_photos : list photo_call :=
  [ {| content := [x01]; suggested_filename := Some "front.png";
       mime_type := Some "image/png" |};
    {| content := [x02]; suggested_filename := None; mime_type := None |} ].

Definition saw_world_after_two_photos : world :=
  match photo_adds demo_host "s" two_photos saw_world with
  | Some w => w
  | None => saw_world
  end.

(** * Properties *)

(** ** Dictionaries *)

Section DictFacts.
Variable V : Type.
Implicit Types (d : Dict.t V) (k : string) (v : V).

Lemma get_set_same k v d : Dict.get k (Dict.set k v d) = Some v.
Proof.
  induction d as [|[k' v'] d IH]; simpl.
  - now rewrite String.eqb_refl.
  - destruct (k =? k') eqn:E; simpl; rewrite E; auto.
Qed.

Lemma get_set_other k k' v d :
  k' <> k -> Dict.get k' (Dict.set k v d) = Dict.get k' d.
Proof.
  intros N. induction d as [|[k0 v0] d IH]; simpl.
  - apply String.eqb_neq in N. now rewrite N.
  - destruct (k =? k0) eqn:E; simpl.
    + apply String.eqb_eq in E; subst k0.
      apply String.eqb_neq in N. now rewrite N.
    + now rewrite IH.
Qed.

Lemma set_present_length k v d :
  Dict.mem k d = true -> List.length (Dict.set k v d) = List.length d.
Proof.
  unfold Dict.mem. induction d as [|[k' v'] d IH]; simpl.
  - discriminate.
  - destruct (k =? k'); simpl; auto.
Qed.

Lemma set_absent k v d :
  Dict.get k d = None -> Dict.set k v d = (d ++ [(k, v)])%list.
Proof.
  induction d as [|[k' v'] d IH]; simpl; auto.
  destruct (k =? k'); [discriminate|]. intros H. now rewrite IH.
Qed.

Lemma get_none_keys k d : Dict.get k d = None <-> ~ In k (Dict.keys d).
Proof.
  induction d as [|[k' v'] d IH]; simpl.
  - tauto.
  - destruct (k =? k') eqn:E.
    + apply String.eqb_eq in E; subst. split; [discriminate | tauto].
    + apply String.eqb_neq in E. rewrite IH. split.
      * intros H [H' | H']; [congruence | tauto].
      * tauto.
Qed.

Lemma pop_absent k d : Dict.get k d = None -> Dict.pop k d = d.
Proof.
  induction d as [|[k' v'] d IH]; simpl; auto.
  destruct (k =? k'); [discriminate|]. intros H. now rewrite IH.
Qed.

Lemma get_pop_same k d : Dict.wf d -> Dict.get k (Dict.pop k d) = None.
Proof.
  unfold Dict.wf. induction d as [|[k' v'] d IH]; simpl; auto.
  intros W. inversion W as [|? ? N W']; subst.
  destruct (k =? k') eqn:E; simpl.
  - apply String.eqb_eq in E; subst k'. now apply get_none_keys.
  - rewrite E. auto.
Qed.

Lemma get_pop_other k k' d :
  k' <> k -> Dict.get k' (Dict.pop k d) = Dict.get k' d.
Proof.
  intros N. induction d as [|[k0 v0] d IH]; simpl; auto.
  destruct (k =? k0) eqn:E; simpl.
  - apply String.eqb_eq in E; subst k0.
    apply String.eqb_neq in N. now rewrite N.
  - now rewrite IH.
Qed.

Lemma mem_set_other k k' v d :
  k' <> k -> Dict.mem k' (Dict.set k v d) = Dict.mem k' d.
Proof. intros N. unfold Dict.mem. now rewrite get_set_other. Qed.

Lemma wfb_wf d : Dict.wfb d = true -> Dict.wf d.
Proof.
  unfold Dict.wf. induction d as [|[k v] d IH]; simpl.
  - constructor.
  - intros H. apply andb_prop in H as [H1 H2]. constructor; auto.
    apply get_none_keys. unfold Dict.mem in H1.
    destruct (Dict.get k d); [discriminate | reflexivity].
Qed.

(** Storing the entries of a dictionary one by one, in order, into an
    empty one rebuilds it. *)
Lemma rebuild d : forall acc,
  NoDup (Dict.keys acc ++ Dict.keys d)%list ->
  fold_left (fun a kv => Dict.set (fst kv) (snd kv) a) d acc
  = (acc ++ d)%list.
Proof.
  induction d as [|[k v] d IH]; intros acc N; simpl.
  - now rewrite app_nil_r.
  - simpl in N. rewrite set_absent.
    + rewrite IH.
      * now rewrite <- app_assoc.
      * unfold Dict.keys in *. rewrite map_app. simpl.
        rewrite <- app_assoc. exact N.
    + apply get_none_keys. apply NoDup_remove_2 in N.
      intros I. apply N. apply in_or_app. now left.
Qed.
End DictFacts.

(** ** The store *)

Section StoreFacts.
Variable h : Host.

(** *** Saving and loading *)

Lemma map_each_attachments atts : forall w,
  map_each (map (fun a => VDict (Attachment.asdict a)) atts) Attachment_init w
  = Returned atts w.
Proof.
  induction atts as [|a atts IH]; intros w; simpl.
  - reflexivity.
  - unfold bind at 1. destruct a; simpl. unfold bind. now rewrite IH.
Qed.

Lemma load_item_asdict it k w :
  Item.id it = VStr k ->
  load_item h (Item.asdict it) w = Returned tt (set_items (Dict.set k it) w).
Proof.
  intros H. destruct it; simpl in H; subst.
  unfold load_item, bind. simpl Dict.get. simpl or_default.
  unfold iterate, ret. rewrite map_each_attachments.
  vm_compute. reflexivity.
Qed.

Lemma load_category_asdict c k w :
  Category.id c = VStr k ->
  load_category h (Category.asdict c) w
  = Returned tt (set_categories (Dict.set k c) w).
Proof.
  intros H. destruct c; simpl in H; subst. vm_compute. reflexivity.
Qed.

Lemma load_items_saved (l : Dict.t Item.t) : forall w,
  (forall k it, In (k, it) l -> Item.id it = VStr k) ->
  for_each (map Item.asdict (Dict.values l)) (load_item h) w
  = Returned tt
      (set_items (fold_left (fun a kv => Dict.set (fst kv) (snd kv) a) l) w).
Proof.
  induction l as [|[k it] l IH]; intros w K; simpl.
  - now destruct w.
  - unfold bind. rewrite (@load_item_asdict it k) by (apply K; now left).
    rewrite IH by (intros; apply K; now right). reflexivity.
Qed.

Lemma load_categories_saved (l : Dict.t Category.t) : forall w,
  (forall k c, In (k, c) l -> Category.id c = VStr k) ->
  for_each (map Category.asdict (Dict.values l)) (load_category h) w
  = Returned tt
      (set_categories
         (fold_left (fun a kv => Dict.set (fst kv) (snd kv) a) l) w).
Proof.
  induction l as [|[k c] l IH]; intros w K; simpl.
  - now destruct w.
  - unfold bind. rewrite (@load_category_asdict c k) by (apply K; now left).
    rewrite IH by (intros; apply K; now right). reflexivity.
Qed.

(** C1, amended.  When no key is repeated and every item and category
    sits under its own id, [async_save] followed by [async_load] into a
    fresh store ends with the same items map and the same categories map,
    every field and every nested attachment included. *)
Theorem save_load_roundtrip w :
  Dict.wf (items w) -> Dict.wf (categories w) -> keyed_by_id w ->
  exists w',
    save_then_load h w = Returned tt w' /\
    items w' = items w /\ categories w' = categories w.
Proof.
  intros Wi Wc [Ki Kc].
  exists (store_write (document w) w). split; [|split; reflexivity].
  unfold save_then_load, async_save, async_load, bind, get_world, modify.
  simpl. unfold bind.
  rewrite load_items_saved by exact Ki.
  rewrite load_categories_saved by exact Kc.
  unfold set_categories, set_items, fresh_store, store_write, Dict.empty.
  simpl. rewrite !rebuild by (simpl; assumption). reflexivity.
Qed.

(** *** update_item *)

Lemma apply_change_ignored item kv :
  hasattr h (fst kv) = false \/ fst kv = "attachments" ->
  apply_change h item kv = Item.Assigned item.
Proof.
  destruct kv as [key v]; simpl; intros [H | H].
  - now rewrite H.
  - subst key. now destruct (hasattr h "attachments").
Qed.

Lemma apply_changes_ignored changes : forall item,
  Forall (fun kv => hasattr h (fst kv) = false \/ fst kv = "attachments")
         changes ->
  apply_changes h changes item = Item.Assigned item.
Proof.
  induction changes as [|kv cs IH]; intros item F; simpl.
  - reflexivity.
  - inversion F; subst. rewrite apply_change_ignored by assumption. auto.
Qed.

(** C2, amended.  For an id in the store and a change set whose keys
    are each either no attribute of the object at all ([hasattr] fails:
    neither a field of [Item] nor a name every object carries) or
    [attachments] (the empty change set included), [update_item] returns
    the item with [updated_at] set to the current time and every other
    field, the attachment list among them, as it was; the item stays under
    its id and the document is written. *)
Theorem update_item_ignored_keys w item_id changes item :
  Dict.get item_id (items w) = Some item ->
  Forall (fun kv => hasattr h (fst kv) = false \/ fst kv = "attachments")
         changes ->
  exists item' w',
    async_update_item h item_id changes w = Returned (Some item') w' /\
    Item.asdict item'
    = Dict.set "updated_at" (VStr (utcnow_iso h (tick w))) (Item.asdict item) /\
    Item.attachments item' = Item.attachments item /\
    items w' = Dict.set item_id item' (items w) /\
    categories w' = categories w /\
    persisted w' = Some (document w') /\
    writes w' = S (writes w).
Proof.
  intros G F.
  eexists. eexists. split.
  - unfold async_update_item, bind, get_world. rewrite G.
    rewrite apply_changes_ignored by assumption. reflexivity.
  - destruct item. repeat split.
Qed.

(** C9.  For an id that is not in the store, [update_item] returns
    [None] and leaves the world as it is: no write to the [Store], no
    change to the maps. *)
Theorem update_item_missing w item_id changes :
  Dict.get item_id (items w) = None ->
  async_update_item h item_id changes w = Returned None w.
Proof.
  intros G. unfold async_update_item, bind, get_world. now rewrite G.
Qed.

(** *** add_item *)

(** C3.  A field bundle without the key [name] makes [add_item] raise
    [ValueError]; the items, the categories, the persisted document, the
    number of writes and the files are what they were. *)
Theorem add_item_requires_name w data :
  Dict.get "name" data = None ->
  exists w', async_add_item h data w = Raised ValueError w' /\ same_store w w'.
Proof.
  intros G. unfold async_add_item.
  assert (N : forall v, Dict.mem "name" (Dict.set "id" v data) = false).
  { intros v. rewrite mem_set_other by discriminate.
    unfold Dict.mem. now rewrite G. }
  destruct (truthy (or_default (Dict.get "id" data) VNone)).
  - eexists. split.
    + unfold bind, ret. rewrite N. reflexivity.
    + repeat split.
  - eexists. split.
    + unfold bind, ret, uuid_uuid4, host_read. rewrite N. reflexivity.
    + repeat split.
Qed.

(** *** delete_item *)

(** C5.  For an id in the store, [delete_item] returns [True], the
    record is gone from the map, the document written lists the remaining
    items only, and deleting again returns [False] and changes nothing; for
    an id that is not in the store it returns [False] and the world is
    untouched. *)
Theorem delete_item_idempotent w item_id :
  Dict.wf (items w) ->
  (Dict.mem item_id (items w) = true ->
   exists w1 d,
     async_delete_item item_id w = Returned true w1 /\
     items w1 = Dict.pop item_id (items w) /\
     Dict.get item_id (items w1) = None /\
     persisted w1 = Some d /\
     StoredData.items d
     = Some (map Item.asdict (Dict.values (Dict.pop item_id (items w)))) /\
     writes w1 = S (writes w) /\
     async_delete_item item_id w1 = Returned false w1) /\
  (Dict.mem item_id (items w) = false ->
   async_delete_item item_id w = Returned false w).
Proof.
  intros W. split; intros Hm.
  - eexists. eexists. split; [|split; [|split; [|split; [|split; [|split]]]]].
    + unfold async_delete_item, bind, get_world. rewrite Hm. reflexivity.
    + reflexivity.
    + simpl. now apply get_pop_same.
    + reflexivity.
    + reflexivity.
    + reflexivity.
    + unfold async_delete_item, bind, get_world. simpl.
      unfold Dict.mem. now rewrite get_pop_same.
  - unfold async_delete_item, bind, get_world. now rewrite Hm.
Qed.

(** *** Photos *)

(** C8.  When the fetch answers with a status other than 200,
    [add_item_photo_from_url] returns [None]; no file is written, no
    attachment is added, and the maps and the persisted document are
    what they were. *)
Theorem photo_from_url_not_200 w item_id image_url suggested status body ct :
  http_get h (tick w) image_url = Response status body ct ->
  status <> 200%Z ->
  exists w',
    async_add_item_photo_from_url h item_id image_url suggested w
    = Returned None w' /\ same_store w w'.
Proof.
  intros R N. unfold async_add_item_photo_from_url, bind, get_world.
  destruct (Dict.get item_id (items w)).
  - unfold session_get, bind, host_read. rewrite R. simpl.
    apply Z.eqb_neq in N. rewrite N. simpl.
    eexists. split; [reflexivity | repeat split].
  - eexists. split; [reflexivity | repeat split].
Qed.
End StoreFacts.
(** ** File names *)

Lemma str_app_assoc (a b c : string) : (a ++ b) ++ c = a ++ b ++ c.
Proof. induction a as [|x a IH]; simpl; [reflexivity | now rewrite IH]. Qed.

Lemma replace_removes old new s :
  old <> new -> str_contains old (str_replace old new s) = false.
Proof.
  intros N. induction s as [|c s IH]; simpl; [reflexivity|].
  rewrite IH, orb_false_r. destruct (Ascii.eqb c old) eqn:E.
  - apply Ascii.eqb_neq. exact N.
  - rewrite Ascii.eqb_sym. exact E.
Qed.

Lemma replace_keeps_absent c old new s :
  c <> new -> str_contains c s = false ->
  str_contains c (str_replace old new s) = false.
Proof.
  intros N. induction s as [|x s IH]; simpl; [reflexivity|].
  intros H. apply orb_false_elim in H as [H1 H2].
  rewrite IH, orb_false_r by assumption.
  destruct (Ascii.eqb x old); [now apply Ascii.eqb_neq | exact H1].
Qed.

Lemma sanitize_no_slash s : str_contains slash (sanitize s) = false.
Proof.
  unfold sanitize. apply replace_keeps_absent; [discriminate|].
  apply replace_removes. discriminate.
Qed.

Lemma sanitize_no_backslash s : str_contains backslash (sanitize s) = false.
Proof. unfold sanitize. apply replace_removes. discriminate. Qed.

(** [sanitize] works character by character: a separator becomes an
    underscore, any other character stays. *)
Lemma sanitize_get s : forall i,
  String.get i (sanitize s) = option_map sanitize_char (String.get i s).
Proof.
  unfold sanitize. induction s as [|c s IH]; intros i; simpl.
  - reflexivity.
  - destruct i as [|i].
    + simpl. f_equal. unfold sanitize_char, is_separator.
      destruct (Ascii.eqb c slash) eqn:E1; simpl.
      * reflexivity.
      * reflexivity.
    + apply IH.
Qed.

Lemma path_join_relative photo_dir filename :
  str_contains slash filename = false ->
  path_join photo_dir filename = dir_prefix photo_dir ++ filename.
Proof.
  unfold path_join, dir_prefix. destruct filename as [|c f]; cbn [str_contains].
  - intros _. destruct ((photo_dir =? "") || ends_with_slash photo_dir).
    + clear. induction photo_dir as [|x a IH]; simpl; [reflexivity|].
      now rewrite <- IH.
    + now rewrite str_app_assoc.
  - intros H. apply orb_false_elim in H as [H _].
    replace (Ascii.eqb c slash) with false
      by (rewrite Ascii.eqb_sym; symmetry; exact H).
    destruct ((photo_dir =? "") || ends_with_slash photo_dir).
    + reflexivity.
    + now rewrite str_app_assoc.
Qed.

Section PhotoFacts.
Variable h : Host.

Lemma photo_from_bytes_returned w item_id content suggested mime item' w' :
  async_add_item_photo_from_bytes h item_id content suggested mime w
  = Returned (Some item') w' ->
  exists item u t t',
    let filename := sanitize (raw_filename h (tick w) item_id suggested mime) in
    Dict.get item_id (items w) = Some item /\
    item' = Item.set_field
              (Item.append_attachment item
                 (photo_attachment filename (photo_mime_type mime) u t))
              "updated_at" (VStr t') /\
    items w' = Dict.set item_id item' (items w) /\
    categories w' = categories w /\
    files w'
    = Dict.set (path_join (config_path h "www/ha_inventory") filename)
               content (files w) /\
    persisted w' = Some (document w').
Proof.
  unfold async_add_item_photo_from_bytes, bind, get_world.
  destruct (Dict.get item_id (items w)) as [item|] eqn:G; [|discriminate].
  unfold _ensure_photo_dir, fs_call, bind, host_read.
  destruct (io_ok h (tick w) _); [|discriminate]. simpl.
  unfold photo_filename, raw_filename, str_or, bind.
  destruct suggested as [f|]; [destruct (f =? "") eqn:E|]; simpl;
    unfold write_file, fs_call, bind, host_read, uuid_uuid4, host_read; simpl;
    match goal with |- context [io_ok h ?t ?p] => destruct (io_ok h t p) end;
    try discriminate; simpl; intros H; inversion H; subst; clear H;
    do 4 eexists; repeat split; eauto.
Qed.

Lemma photo_from_bytes_succeeds w item_id content suggested mime item :
  Dict.get item_id (items w) = Some item ->
  (forall t p, io_ok h t p = true) ->
  exists item' w',
    async_add_item_photo_from_bytes h item_id content suggested mime w
    = Returned (Some item') w'.
Proof.
  intros G OK.
  unfold async_add_item_photo_from_bytes, bind, get_world. rewrite G.
  unfold _ensure_photo_dir, fs_call, bind, host_read. rewrite OK. simpl.
  unfold photo_filename, bind.
  destruct suggested as [f|]; [destruct (f =? "")|]; simpl;
    unfold write_file, fs_call, bind, host_read, uuid_uuid4, host_read; simpl;
    rewrite OK; simpl; eauto.
Qed.

(** C6.  Photo adds on an item of the store that all return the item
    leave its earlier attachments in place and in order and put one new
    attachment per call after them, each with category [photo] and a
    path under [/local/ha_inventory/]; started from an empty list, the
    list has as many attachments as there were calls. *)
Theorem photo_adds_append item_id calls : forall w item w',
  Dict.get item_id (items w) = Some item ->
  photo_adds h item_id calls w = Some w' ->
  exists item' added,
    Dict.get item_id (items w') = Some item' /\
    Item.attachments item' = (Item.attachments item ++ added)%list /\
    List.length added = List.length calls /\
    Forall (fun a =>
              Attachment.category a = VStr "photo" /\
              exists filename,
                Attachment.name a = VStr filename /\
                Attachment.path a = VStr ("/local/ha_inventory/" ++ filename))
           added /\
    (Item.attachments item = [] ->
     List.length (Item.attachments item') = List.length calls).
Proof.
  induction calls as [|c calls IH]; intros w item w' G R; simpl in R.
  - inversion R; subst. exists item, []. rewrite app_nil_r.
    repeat split; auto. intros E. now rewrite E.
  - destruct (async_add_item_photo_from_bytes h item_id (content c)
                (suggested_filename c) (mime_type c) w)
      as [[item1|] w1| |] eqn:E; try discriminate.
    apply photo_from_bytes_returned in E
      as (item0 & u & t & t' & G0 & Ei & Es & _).
    rewrite G in G0. inversion G0; subst item0. clear G0.
    assert (G1 : Dict.get item_id (items w1) = Some item1)
      by (rewrite Es; apply get_set_same).
    destruct (IH w1 item1 w' G1 R) as (item' & added & G' & A & L & F & _).
    assert (A1 : Item.attachments item1
                 = (Item.attachments item
                    ++ [photo_attachment
                          (sanitize (raw_filename h (tick w) item_id
                                       (suggested_filename c) (mime_type c)))
                          (photo_mime_type (mime_type c)) u t])%list)
      by (rewrite Ei; reflexivity).
    rewrite A1 in A. rewrite <- app_assoc in A. simpl in A.
    eexists item', (_ :: added).
    split; [exact G'|]. split; [exact A|]. split; [simpl; now rewrite L|].
    split.
    + constructor; [|exact F]. split; [reflexivity|].
      eexists. split; reflexivity.
    + intros E0. rewrite A, E0. simpl. now rewrite L.
Qed.

(** C7.  Whatever file name is suggested, the name a returning
    [add_item_photo_from_bytes] uses holds neither separator: it is the
    suggested (or generated) name with every [/] and every backslash
    replaced by [_], it is the name and the last path component recorded
    in the new attachment, and the file written is that name directly
    under the photo directory. *)
Theorem photo_filename_sanitized w item_id content suggested mime item' w' :
  async_add_item_photo_from_bytes h item_id content suggested mime w
  = Returned (Some item') w' ->
  let raw := raw_filename h (tick w) item_id suggested mime in
  let filename := sanitize raw in
  str_contains slash filename = false /\
  str_contains backslash filename = false /\
  (forall i, String.get i filename
             = option_map sanitize_char (String.get i raw)) /\
  (exists item a,
     Dict.get item_id (items w) = Some item /\
     Item.attachments item' = (Item.attachments item ++ [a])%list /\
     Attachment.name a = VStr filename /\
     Attachment.path a = VStr ("/local/ha_inventory/" ++ filename)) /\
  files w'
  = Dict.set (dir_prefix (config_path h "www/ha_inventory") ++ filename)
             content (files w).
Proof.
  intros R. apply photo_from_bytes_returned in R
    as (item & u & t & t' & G & Ei & _ & _ & Ef & _).
  simpl. split; [apply sanitize_no_slash|].
  split; [apply sanitize_no_backslash|].
  split; [apply sanitize_get|]. split.
  - exists item. eexists. split; [exact G|]. rewrite Ei. simpl.
    split; [reflexivity|]. split; reflexivity.
  - rewrite Ef. rewrite path_join_relative by apply sanitize_no_slash.
    reflexivity.
Qed.
End PhotoFacts.
Section UpdateFacts.
Variable h : Host.

Lemma set_field_id it key v :
  key <> "id" -> Item.id (Item.set_field it key v) = Item.id it.
Proof. intros N. apply String.eqb_neq in N. simpl. now rewrite N. Qed.

(** One turn of the loop either leaves the item or sets a field other
    than [attachments]. *)
Lemma apply_change_some item kv item' :
  apply_change h item kv = Item.Assigned item' ->
  item' = item \/
  (Item.is_field (fst kv) = true /\ fst kv <> "attachments" /\
   item' = Item.set_field item (fst kv) (snd kv)).
Proof.
  destruct kv as [key v]; simpl.
  destruct (hasattr h key); simpl; [|intros E; inversion E; now left].
  destruct (key =? "attachments") eqn:Ea.
  - intros E'; inversion E'; now left.
  - unfold Item.setattr. rewrite Ea. apply String.eqb_neq in Ea.
    destruct (Item.is_field key).
    + intros E'; inversion E'. right. auto.
    + destruct (key =? "__class__"); discriminate.
Qed.

(** The loop stops where a turn stops. *)
Lemma apply_changes_step kv cs item item' :
  apply_changes h (kv :: cs) item = Item.Assigned item' ->
  exists item1,
    apply_change h item kv = Item.Assigned item1 /\
    apply_changes h cs item1 = Item.Assigned item'.
Proof.
  simpl. destruct (apply_change h item kv) as [item1|e item1|];
    [eauto | discriminate | discriminate].
Qed.

Lemma apply_change_id item kv item' :
  apply_change h item kv = Item.Assigned item' ->
  fst kv <> "id" -> Item.id item' = Item.id item.
Proof.
  intros A N. apply apply_change_some in A as [E | (_ & _ & E)]; subst.
  - reflexivity.
  - now apply set_field_id.
Qed.

Lemma apply_change_attachments item kv item' :
  apply_change h item kv = Item.Assigned item' ->
  Item.attachments item' = Item.attachments item.
Proof.
  intros A. apply apply_change_some in A as [E | (_ & _ & E)]; now subst.
Qed.

Lemma apply_changes_id changes : forall item item',
  apply_changes h changes item = Item.Assigned item' ->
  ~ In "id" (Dict.keys changes) ->
  Item.id item' = Item.id item.
Proof.
  induction changes as [|kv cs IH]; intros item item' A N; simpl in *.
  - now inversion A.
  - apply apply_changes_step in A as (item1 & A1 & A).
    rewrite (IH _ _ A) by tauto.
    apply (@apply_change_id _ _ _ A1). intros E. apply N. now left.
Qed.

Lemma apply_changes_attachments changes : forall item item',
  apply_changes h changes item = Item.Assigned item' ->
  Item.attachments item' = Item.attachments item.
Proof.
  induction changes as [|kv cs IH]; intros item item' A; simpl in *.
  - now inversion A.
  - apply apply_changes_step in A as (item1 & A1 & A).
    rewrite (IH _ _ A). apply (@apply_change_attachments _ _ _ A1).
Qed.

Lemma set_field_getattr_same it key v :
  Item.is_field key = true -> key <> "attachments" ->
  Item.getattr (Item.set_field it key v) key = Some v.
Proof.
  intros H N. unfold Item.is_field in H.
  apply existsb_exists in H as (f & I & E).
  apply String.eqb_eq in E. subst f.
  simpl in I.
  repeat (destruct I as [I | I]; [subst key; try congruence; reflexivity|]).
  destruct I.
Qed.

Lemma set_field_getattr_other it key v key' :
  key' <> key ->
  Item.getattr (Item.set_field it key v) key' = Item.getattr it key'.
Proof.
  intros N. unfold Item.getattr, Item.asdict, Item.set_field.
  cbn [Dict.get Item.id Item.name Item.description Item.area_id
       Item.zone_entity_id Item.ha_label_ids Item.category_id Item.quantity
       Item.unit Item.purchase_date Item.purchase_price
       Item.purchase_currency Item.warranty_expires_at Item.serial_number
       Item.model_number Item.asset_tag Item.condition Item.archived
       Item.parent_item_id Item.custom_fields Item.attachments Item.notes
       Item.created_at Item.updated_at].
  repeat match goal with
  | |- context [if key' =? ?f then _ else _] =>
      destruct (key' =? f) eqn:?E;
      [ apply String.eqb_eq in E; subst key';
        try (apply not_eq_sym, String.eqb_neq in N; rewrite N);
        reflexivity | clear E ]
  end.
  reflexivity.
Qed.

Lemma apply_change_getattr_other item kv item' key :
  apply_change h item kv = Item.Assigned item' ->
  key <> fst kv ->
  Item.getattr item' key = Item.getattr item key.
Proof.
  intros A N. apply apply_change_some in A as [E | (_ & _ & E)]; subst.
  - reflexivity.
  - now apply set_field_getattr_other.
Qed.

Lemma apply_changes_getattr_other changes : forall item item' key,
  apply_changes h changes item = Item.Assigned item' ->
  ~ In key (Dict.keys changes) ->
  Item.getattr item' key = Item.getattr item key.
Proof.
  induction changes as [|kv cs IH]; intros item item' key A N; simpl in *.
  - now inversion A.
  - apply apply_changes_step in A as (item1 & A1 & A).
    rewrite (IH _ _ _ A) by tauto.
    apply (@apply_change_getattr_other _ _ _ _ A1). intros E. apply N. now left.
Qed.

(** A field of a well-formed change set, other than [attachments], ends
    up in the item. *)
Lemma apply_changes_applied changes : forall item item' key v,
  apply_changes h changes item = Item.Assigned item' ->
  Dict.wf changes -> In (key, v) changes ->
  Item.is_field key = true -> key <> "attachments" ->
  Item.getattr item' key = Some v.
Proof.
  unfold Dict.wf.
  induction changes as [|kv cs IH]; intros item item' key v A W I F N;
    simpl in *.
  - destruct I.
  - apply apply_changes_step in A as (item1 & A1 & A).
    inversion W as [|? ? N1 W1]; subst. destruct I as [I | I].
    + subst kv. simpl in N1.
      rewrite (@apply_changes_getattr_other _ _ _ _ A N1).
      simpl in A1. unfold hasattr in A1. rewrite F in A1. simpl in A1.
      pose proof N as N'. apply String.eqb_neq in N'. rewrite N' in A1.
      unfold Item.setattr in A1. rewrite N', F in A1.
      inversion A1. now apply set_field_getattr_same.
    + eapply IH; eauto.
Qed.

Lemma plain_keys_apply changes : forall item,
  plain_keys h changes = true ->
  exists item', apply_changes h changes item = Item.Assigned item'.
Proof.
  unfold plain_keys.
  induction changes as [|[key v] cs IH]; intros item P; simpl in *.
  - eauto.
  - apply andb_prop in P as [P1 P2]. unfold hasattr.
    destruct (Item.is_field key) eqn:F; simpl.
    + destruct (key =? "attachments") eqn:Ea; [auto|].
      unfold Item.setattr. rewrite Ea, F. auto.
    + simpl in P1. apply negb_true_iff in P1. rewrite P1. simpl. auto.
Qed.

Lemma plain_keys_pop k kw :
  plain_keys h kw = true -> plain_keys h (Dict.pop k kw) = true.
Proof.
  unfold plain_keys.
  induction kw as [|[k0 v0] kw IH]; simpl; [reflexivity|].
  intros P. apply andb_prop in P as [P1 P2].
  destruct (k =? k0); simpl; [assumption|]. rewrite P1. auto.
Qed.

(** What [async_update_item] does to an item of the store. *)
Lemma update_item_present w item_id changes item item1 :
  Dict.get item_id (items w) = Some item ->
  apply_changes h changes item = Item.Assigned item1 ->
  let item' := Item.set_field item1 "updated_at"
                            (VStr (utcnow_iso h (tick w))) in
  let w1 := set_items (Dict.set item_id item') (next_tick w) in
  async_update_item h item_id changes w
  = Returned (Some item') (store_write (document w1) w1).
Proof.
  intros G A. unfold async_update_item, bind, get_world. now rewrite G, A.
Qed.

Lemma pop_removes_key (V : Type) k (d : Dict.t V) :
  Dict.wf d -> ~ In k (Dict.keys (Dict.pop k d)).
Proof. intros W. apply get_none_keys. now apply get_pop_same. Qed.

Lemma in_pop (V : Type) k k' (v : V) (d : Dict.t V) :
  k' <> k -> In (k', v) d -> In (k', v) (Dict.pop k d).
Proof.
  intros N. induction d as [|[k0 v0] d IH]; simpl; [tauto|].
  intros [I | I].
  - inversion I; subst. apply not_eq_sym, String.eqb_neq in N.
    rewrite N. now left.
  - destruct (k =? k0); [assumption | right; auto].
Qed.

Lemma wf_pop (V : Type) k (d : Dict.t V) : Dict.wf d -> Dict.wf (Dict.pop k d).
Proof.
  unfold Dict.wf. induction d as [|[k0 v0] d IH]; simpl; [auto|].
  intros W. inversion W as [|? ? N W']; subst.
  destruct (k =? k0); [assumption|]. simpl. constructor; [|auto].
  intros I. apply N. clear -I.
  induction d as [|[k1 v1] d IH]; simpl in *; [assumption|].
  destruct (k =? k1); [now right|]. destruct I; [now left | right; auto].
Qed.

Lemma binds_twice_pop bound k (kw : Dict.t value) :
  binds_twice bound kw = false -> binds_twice bound (Dict.pop k kw) = false.
Proof.
  unfold binds_twice. induction bound as [|p ps IH]; simpl; [reflexivity|].
  intros B. apply orb_false_elim in B as [B1 B2]. rewrite IH by exact B2.
  rewrite orb_false_r. unfold Dict.mem in *.
  destruct (Dict.get p kw) eqn:G; [discriminate|].
  clear -G. induction kw as [|[k0 v0] kw IHk]; simpl in *; [reflexivity|].
  destruct (p =? k0) eqn:E; [discriminate|].
  destruct (k =? k0); simpl; [now rewrite G|]. rewrite E. auto.
Qed.

(** C4, amended.  The [update_item] service takes the [id] of the call
    data to find the record and hands the other keys to the store as the
    change set.  For call data that names no attribute of the object
    besides its fields: after the call every stored item has the [id] and
    the attachment list it had (an exception leaves the world as it was);
    and, unless a key of the call data collides with a parameter of the
    method, every other field of [Item] named in the call data,
    [updated_at] apart, holds the value given. *)
Theorem handle_update_item_keeps_id w call_data :
  Dict.wf call_data ->
  plain_keys h call_data = true ->
  (forall k item,
     Dict.get k (items w) = Some item ->
     match handle_update_item h call_data w with
     | Returned _ w' =>
         exists item',
           Dict.get k (items w') = Some item' /\
           Item.id item' = Item.id item /\
           Item.attachments item' = Item.attachments item
     | Raised _ w' => w' = w
     | Unmodelled => False
     end) /\
  (forall k item,
     Dict.get "id" call_data = Some (VStr k) ->
     binds_twice ["self"; "item_id"] call_data = false ->
     Dict.get k (items w) = Some item ->
     exists item' w',
       handle_update_item h call_data w = Returned tt w' /\
       Dict.get k (items w') = Some item' /\
       forall key v,
         In (key, v) call_data -> Item.is_field key = true ->
         key <> "id" -> key <> "attachments" -> key <> "updated_at" ->
         Item.getattr item' key = Some v).
Proof.
  intros W P. apply (plain_keys_pop "id") in P. split.
  - intros k item G. unfold handle_update_item.
    destruct (Dict.get "id" call_data) as [v|]; [|reflexivity].
    destruct (binds_twice _ _); [reflexivity|].
    unfold bind, with_item_key.
    destruct v as [| | | |k0| |]; try (simpl; eauto; fail).
    destruct (Dict.get k0 (items w)) as [item0|] eqn:G0.
    + destruct (@plain_keys_apply _ item0 P) as [item1 A].
      rewrite (@update_item_present _ _ _ _ _ G0 A). simpl.
      destruct (String.eqb_spec k k0) as [E | E].
      * subst k0. rewrite G in G0. inversion G0; subst item0.
        eexists. split; [apply get_set_same|]. split.
        -- simpl. apply (@apply_changes_id _ _ _ A). now apply pop_removes_key.
        -- simpl. apply (@apply_changes_attachments _ _ _ A).
      * exists item. rewrite get_set_other by exact E. auto.
    + unfold async_update_item, bind, get_world. rewrite G0. simpl. eauto.
  - intros k item Gi B G. unfold handle_update_item. rewrite Gi.
    rewrite binds_twice_pop by exact B.
    unfold bind, with_item_key.
    destruct (@plain_keys_apply _ item P) as [item1 A].
    rewrite (@update_item_present _ _ _ _ _ G A). simpl.
    eexists. eexists. split; [reflexivity|]. split; [apply get_set_same|].
    intros key v I F N1 N2 N3.
    rewrite set_field_getattr_other by exact N3.
    apply (@apply_changes_applied _ _ _ _ _ A); auto.
    + now apply wf_pop.
    + now apply in_pop.
Qed.
End UpdateFacts.
Section AddFacts.
Variable h : Host.

Lemma unexpected_set fields kw k v :
  unexpected fields kw = false ->
  existsb (String.eqb k) fields = true ->
  unexpected fields (Dict.set k v kw) = false.
Proof.
  unfold unexpected. intros U F.
  induction kw as [|[k' v'] kw IH]; simpl in *.
  - now rewrite F.
  - apply orb_false_elim in U as [U1 U2].
    destruct (k =? k'); simpl; rewrite U1; auto.
Qed.

Lemma unexpected_pop fields kw k :
  unexpected fields kw = false -> unexpected fields (Dict.pop k kw) = false.
Proof.
  unfold unexpected. intros U.
  induction kw as [|[k' v'] kw IH]; simpl in *; [reflexivity|].
  apply orb_false_elim in U as [U1 U2].
  destruct (k =? k'); simpl; [assumption|]. rewrite U1. auto.
Qed.

(** The constructor goes through on a bundle of known keys that has an
    [id] and a [name]; it reads the clock for the time stamps that are
    not supplied and touches nothing else. *)
Lemma Item_init_returns kw atts i n w :
  unexpected Item.fields kw = false ->
  Dict.get "id" kw = Some i -> Dict.get "name" kw = Some n ->
  exists item w',
    Item_init h kw atts w = Returned item w' /\ same_store w w' /\
    Item.id item = i /\ Item.name item = n /\ Item.attachments item = atts.
Proof.
  intros U Gi Gn. unfold Item_init. rewrite U, Gi, Gn.
  unfold bind, now_unless_given.
  destruct (Dict.get "created_at" kw), (Dict.get "updated_at" kw);
    unfold bind, _now_iso, host_read, ret; simpl;
    eexists; eexists; (split; [reflexivity | repeat split]).
Qed.

(** [async_add_item] from the point where the id is settled. *)
Lemma add_item_keyed data k n w :
  unexpected Item.fields data = false ->
  Dict.get "name" data = Some n ->
  let data1 := Dict.set "id" (VStr k) data in
  let data2 := if Dict.mem "attachments" data1
               then Dict.pop "attachments" data1 else data1 in
  Dict.mem "name" data1 = true /\
  exists item w',
    Item_init h data2 [] w = Returned item w' /\ same_store w w' /\
    Item.id item = VStr k /\ Item.name item = n /\ Item.attachments item = [].
Proof.
  intros U Gn data1 data2.
  assert (U1 : unexpected Item.fields data1 = false)
    by (apply unexpected_set; [exact U | reflexivity]).
  assert (G1 : Dict.get "id" data1 = Some (VStr k)) by apply get_set_same.
  assert (N1 : Dict.get "name" data1 = Some n)
    by (unfold data1; rewrite get_set_other by discriminate; exact Gn).
  split; [unfold Dict.mem; now rewrite N1|].
  apply Item_init_returns; unfold data2;
    destruct (Dict.mem "attachments" data1);
    try (now apply unexpected_pop); try assumption;
    rewrite get_pop_other by discriminate; assumption.
Qed.

(** C10, amended.  [add_item] does not check a supplied id against the
    store.  For a bundle whose keys are all fields of [Item] and that has
    a [name]: with the non-empty id of a stored item, the new record,
    without attachments, takes the place of the old one and the document
    is written; with the empty string as id, the record gets the string
    of a newly drawn uuid as id and is stored under it. *)
Theorem add_item_supplied_id w data n :
  unexpected Item.fields data = false ->
  Dict.get "name" data = Some n ->
  (forall k old,
     Dict.get "id" data = Some (VStr k) -> k <> "" ->
     Dict.get k (items w) = Some old ->
     exists item w',
       async_add_item h data w = Returned item w' /\
       Item.id item = VStr k /\ Item.name item = n /\
       Item.attachments item = [] /\
       items w' = Dict.set k item (items w) /\
       Dict.get k (items w') = Some item /\
       List.length (items w') = List.length (items w) /\
       persisted w' = Some (document w')) /\
  (Dict.get "id" data = Some (VStr "") ->
   let k := uuid_str (uuid4 h (tick w)) in
   exists item w',
     async_add_item h data w = Returned item w' /\
     Item.id item = VStr k /\ Item.name item = n /\
     items w' = Dict.set k item (items w) /\
     persisted w' = Some (document w')).
Proof.
  intros U Gn. split.
  - intros k old Gi Nk Go.
    destruct (@add_item_keyed data k n w U Gn)
      as (Hn & item & w1 & R & (Si & _) & Ei & En & Ea).
    unfold async_add_item. rewrite Gi. simpl or_default.
    apply String.eqb_neq in Nk. simpl truthy. rewrite Nk. simpl negb.
    unfold bind at 1. unfold ret at 1.
    rewrite Hn. cbn [negb].
    unfold bind. rewrite R. unfold items_setitem. rewrite Ei.
    simpl.
    eexists. eexists. split; [reflexivity|].
    simpl. rewrite Si. repeat split; auto.
    + apply get_set_same.
    + apply set_present_length. unfold Dict.mem. now rewrite Go.
  - intros Gi k.
    destruct (@add_item_keyed data k n (next_tick w) U Gn)
      as (Hn & item & w1 & R & (Si & _) & Ei & En & Ea).
    unfold async_add_item. rewrite Gi. simpl or_default. simpl truthy.
    cbv iota. unfold bind at 1. unfold bind at 1.
    unfold uuid_uuid4, host_read, ret at 1. fold k.
    rewrite Hn. cbn [negb].
    unfold bind. rewrite R. unfold items_setitem. rewrite Ei.
    simpl.
    eexists. eexists. split; [reflexivity|].
    simpl. rewrite Si. repeat split; auto.
Qed.
End AddFacts.

(** ** The statements at work on concrete stores *)

Ltac wf_by_computation := apply wfb_wf; reflexivity.

Lemma drill_world_keyed : keyed_by_id drill_world.
Proof.
  split; intros k x [E | []]; inversion E; reflexivity.
Qed.

Lemma save_load_roundtrip_witness :
  Dict.wf (items drill_world) /\ Dict.wf (categories drill_world) /\
  keyed_by_id drill_world /\
  exists w',
    save_then_load demo_host drill_world = Returned tt w' /\
    items w' = items drill_world /\ categories w' = categories drill_world.
Proof.
  assert (Wi : Dict.wf (items drill_world)) by wf_by_computation.
  assert (Wc : Dict.wf (categories drill_world)) by wf_by_computation.
  pose proof drill_world_keyed as K.
  split; [exact Wi|]. split; [exact Wc|]. split; [exact K|].
  exact (@save_load_roundtrip demo_host drill_world Wi Wc K).
Defined.

(** C1 fails as stated: the item stored under [a] with id [b] comes back
    under [b], and [a] is gone. *)
Lemma save_load_roundtrip_counterexample :
  ~ roundtrip_identical demo_host renamed_world.
Proof.
  intros (w' & R & Hi & _). vm_compute in R. inversion R; subst w'.
  specialize (Hi "a"). vm_compute in Hi. discriminate.
Qed.

(** The store gets into such a state through its own methods. *)
Example renamed_world_reached :
  exists item0 w1 item w2,
    async_add_item demo_host [("id", VStr "a"); ("name", VStr "Drill")]
                   empty_world = Returned item0 w1 /\
    async_update_item demo_host "a" rename_changes w1
    = Returned (Some item) w2 /\
    Dict.get "a" (items w2) = Some item /\ Item.id item = VStr "b" /\
    ~ roundtrip_identical demo_host w2.
Proof.
  do 4 eexists. split; [vm_compute; reflexivity|].
  split; [vm_compute; reflexivity|]. split; [reflexivity|].
  split; [reflexivity|].
  intros (w' & R & Hi & _). vm_compute in R. inversion R; subst w'.
  specialize (Hi "a"). vm_compute in Hi. discriminate.
Qed.

Lemma update_item_ignored_keys_witness :
  Dict.get "a" (items drill_world) = Some drill /\
  Forall (fun kv => hasattr demo_host (fst kv) = false
                    \/ fst kv = "attachments")
         ignored_changes /\
  exists item' w',
    async_update_item demo_host "a" ignored_changes drill_world
    = Returned (Some item') w' /\
    Item.asdict item'
    = Dict.set "updated_at" (VStr (utcnow_iso demo_host (tick drill_world)))
               (Item.asdict drill) /\
    Item.attachments item' = Item.attachments drill /\
    items w' = Dict.set "a" item' (items drill_world) /\
    categories w' = categories drill_world /\
    persisted w' = Some (document w') /\
    writes w' = S (writes drill_world).
Proof.
  assert (G : Dict.get "a" (items drill_world) = Some drill) by reflexivity.
  assert (F : Forall (fun kv => hasattr demo_host (fst kv) = false
                                \/ fst kv = "attachments") ignored_changes).
  { constructor; [left; reflexivity|].
    constructor; [right; reflexivity | constructor]. }
  split; [exact G|]. split; [exact F|].
  exact (@update_item_ignored_keys demo_host drill_world "a" ignored_changes
           drill G F).
Defined.

Example update_item_ignored_keys_run :
  exists w',
    async_update_item demo_host "a" ignored_changes drill_world
    = Returned (Some (Item.set_field drill "updated_at"
                        (VStr "2024-05-01T10:00:00"))) w'.
Proof. eexists. vm_compute. reflexivity. Qed.

(** C2 fails as stated: [__class__] is no field of [Item], yet the loop
    does not skip it, and the assignment raises [TypeError]. *)
Lemma update_item_class_counterexample :
  ~ update_ignores demo_host drill_world "a" class_changes.
Proof.
  intros H.
  assert (F : Forall (fun kv => Item.is_field (fst kv) = false
                                \/ fst kv = "attachments") class_changes)
    by (constructor; [left; reflexivity | constructor]).
  destruct (H drill eq_refl F) as (item' & w' & R & _).
  vm_compute in R. discriminate R.
Qed.

Example update_item_class_run :
  Item.is_field "__class__" = false /\
  hasattr demo_host "__class__" = true /\
  async_update_item demo_host "a" class_changes drill_world
  = Raised TypeError drill_world.
Proof. repeat split. Qed.

(** The assignments made before the one that raises stay in the stored
    object; [updated_at] is not refreshed and nothing is saved. *)
Example update_item_class_after_field :
  match async_update_item demo_host "a"
          [("quantity", VInt 2); ("__class__", VStr "Item");
           ("unit", VStr "kg")] drill_world with
  | Raised TypeError w' =>
      Dict.get "a" (items w') = Some (Item.set_field drill "quantity" (VInt 2))
      /\ persisted w' = persisted drill_world
      /\ writes w' = writes drill_world
  | _ => False
  end.
Proof. vm_compute. repeat split. Qed.

(** The test on [attachments] is what keeps the list: [setattr] itself
    would replace it. *)
Example attachments_kept_by_the_guard :
  Item.setattr drill "attachments" (VList [])
  = Item.Assigned (item_named "a" "Drill" []) /\
  match async_update_item demo_host "a" [("attachments", VList [])]
          drill_world with
  | Returned (Some item') _ => Item.attachments item' = [drill_photo]
  | _ => False
  end.
Proof. split; vm_compute; reflexivity. Qed.

(** A key such as [__dict__] passes [hasattr] without being a field: the
    loop assigns to it, and the model stops. *)
Example update_item_object_attr :
  hasattr demo_host "__dict__" = true /\
  Item.is_field "__dict__" = false /\
  async_update_item demo_host "a" [("__dict__", VDict [])] drill_world
  = Unmodelled.
Proof. repeat split. Qed.

Lemma update_item_missing_witness :
  Dict.get "nope" (items drill_world) = None /\
  async_update_item demo_host "nope" update_call drill_world
  = Returned None drill_world.
Proof.
  assert (G : Dict.get "nope" (items drill_world) = None) by reflexivity.
  split; [exact G|].
  exact (@update_item_missing demo_host drill_world "nope" update_call G).
Defined.

Lemma add_item_requires_name_witness :
  Dict.get "name" nameless_bundle = None /\
  exists w',
    async_add_item demo_host nameless_bundle drill_world
    = Raised ValueError w' /\
    same_store drill_world w'.
Proof.
  assert (G : Dict.get "name" nameless_bundle = None) by reflexivity.
  split; [exact G|].
  exact (@add_item_requires_name demo_host drill_world nameless_bundle G).
Defined.

Lemma delete_item_idempotent_witness :
  Dict.wf (items drill_world) /\
  Dict.mem "a" (items drill_world) = true /\
  (exists w1 d,
     async_delete_item "a" drill_world = Returned true w1 /\
     items w1 = Dict.pop "a" (items drill_world) /\
     Dict.get "a" (items w1) = None /\
     persisted w1 = Some d /\
     StoredData.items d
     = Some (map Item.asdict
               (Dict.values (Dict.pop "a" (items drill_world)))) /\
     writes w1 = S (writes drill_world) /\
     async_delete_item "a" w1 = Returned false w1) /\
  Dict.mem "nope" (items drill_world) = false /\
  async_delete_item "nope" drill_world = Returned false drill_world.
Proof.
  assert (W : Dict.wf (items drill_world)) by wf_by_computation.
  assert (Hm : Dict.mem "a" (items drill_world) = true) by reflexivity.
  assert (Hn : Dict.mem "nope" (items drill_world) = false) by reflexivity.
  split; [exact W|]. split; [exact Hm|].
  split; [exact (proj1 (@delete_item_idempotent drill_world "a" W) Hm)|].
  split; [exact Hn|].
  exact (proj2 (@delete_item_idempotent drill_world "nope" W) Hn).
Defined.

Lemma photo_from_url_not_200_witness :
  http_get demo_host (tick drill_world) "http://cam/gone"
  = Response 404 [] None /\
  404%Z <> 200%Z /\
  exists w',
    async_add_item_photo_from_url demo_host "a" "http://cam/gone" None
                                  drill_world
    = Returned None w' /\ same_store drill_world w'.
Proof.
  assert (R : http_get demo_host (tick drill_world) "http://cam/gone"
              = Response 404 [] None) by reflexivity.
  assert (N : 404%Z <> 200%Z) by lia.
  split; [exact R|]. split; [exact N|].
  exact (@photo_from_url_not_200 demo_host drill_world "a" "http://cam/gone"
           None 404%Z [] None R N).
Defined.

(** With status 200 the same call does add the photo. *)
Example photo_from_url_200 :
  exists item' w',
    async_add_item_photo_from_url demo_host "a" "http://cam/ok" None
                                  drill_world
    = Returned (Some item') w' /\
    List.length (Item.attachments item') = 2 /\
    List.length (files w') = 1.
Proof. do 2 eexists. split; [vm_compute; reflexivity|]. split; reflexivity. Qed.

Lemma photo_adds_append_witness :
  Dict.get "s" (items saw_world) = Some saw /\
  photo_adds demo_host "s" two_photos saw_world
  = Some saw_world_after_two_photos /\
  exists item' added,
    Dict.get "s" (items saw_world_after_two_photos) = Some item' /\
    Item.attachments item' = (Item.attachments saw ++ added)%list /\
    List.length added = List.length two_photos /\
    Forall (fun a =>
              Attachment.category a = VStr "photo" /\
              exists filename,
                Attachment.name a = VStr filename /\
                Attachment.path a = VStr ("/local/ha_inventory/" ++ filename))
           added /\
    (Item.attachments saw = [] ->
     List.length (Item.attachments item') = List.length two_photos).
Proof.
  assert (G : Dict.get "s" (items saw_world) = Some saw) by reflexivity.
  assert (R : photo_adds demo_host "s" two_photos saw_world
              = Some saw_world_after_two_photos)
    by (vm_compute; reflexivity).
  split; [exact G|]. split; [exact R|].
  exact (@photo_adds_append demo_host "s" two_photos saw_world saw
           saw_world_after_two_photos G R).
Defined.

Example two_photos_names :
  option_map (fun it => map Attachment.name (Item.attachments it))
             (Dict.get "s" (items saw_world_after_two_photos))
  = Some [VStr "front.png";
          VStr "s-00000000000000001234567890abcdf5.jpg"].
Proof. vm_compute. reflexivity. Qed.

(** Two adds under the same suggested name: one file, two attachments. *)
Example same_name_twice :
  let call := {| content := [x01]; suggested_filename := Some "saw.jpg";
                 mime_type := None |} in
  option_map (fun w => (option_map (fun it => List.length (Item.attachments it))
                                   (Dict.get "s" (items w)),
                        List.length (files w)))
             (photo_adds demo_host "s" [call; call] saw_world)
  = Some (Some 2, 1).
Proof. vm_compute. reflexivity. Qed.

Lemma photo_filename_sanitized_witness :
  exists item' w',
    async_add_item_photo_from_bytes demo_host "s" [x01] (Some traversal_name)
                                    None saw_world
    = Returned (Some item') w' /\
    let raw := raw_filename demo_host (tick saw_world) "s"
                            (Some traversal_name) None in
    let filename := sanitize raw in
    str_contains slash filename = false /\
    str_contains backslash filename = false /\
    (forall i, String.get i filename
               = option_map sanitize_char (String.get i raw)) /\
    (exists item a,
       Dict.get "s" (items saw_world) = Some item /\
       Item.attachments item' = (Item.attachments item ++ [a])%list /\
       Attachment.name a = VStr filename /\
       Attachment.path a = VStr ("/local/ha_inventory/" ++ filename)) /\
    files w'
    = Dict.set (dir_prefix (config_path demo_host "www/ha_inventory")
                ++ filename)
               [x01] (files saw_world).
Proof.
  eexists. eexists.
  assert (R : async_add_item_photo_from_bytes demo_host "s" [x01]
                (Some traversal_name) None saw_world
              = Returned (Some _) _) by (vm_compute; reflexivity).
  split; [exact R|].
  exact (@photo_filename_sanitized demo_host saw_world "s" [x01]
           (Some traversal_name) None _ _ R).
Defined.

Example traversal_name_sanitized :
  sanitize traversal_name = ".._.._etc_cron.d_job_x.png" /\
  match async_add_item_photo_from_bytes demo_host "s" [x01]
          (Some traversal_name) None saw_world with
  | Returned _ w' =>
      Dict.keys (files w')
      = ["/config/www/ha_inventory/.._.._etc_cron.d_job_x.png"]
  | _ => False
  end.
Proof. split; vm_compute; reflexivity. Qed.

(** C4 fails as stated on the store's own method: an [id] key in the
    change set is written into the record. *)
Lemma update_item_id_counterexample :
  ~ update_keeps_id demo_host drill_world "a" rename_changes.
Proof.
  intros H. destruct (H drill eq_refl) as (r & w' & item' & R & G & E).
  vm_compute in R. inversion R; subst r w'. clear R.
  vm_compute in G. inversion G; subst item'. discriminate E.
Qed.

Lemma handle_update_item_keeps_id_witness :
  Dict.wf update_call /\
  plain_keys demo_host update_call = true /\
  match handle_update_item demo_host update_call drill_world with
  | Returned _ w' =>
      exists item',
        Dict.get "a" (items w') = Some item' /\
        Item.id item' = Item.id drill /\
        Item.attachments item' = Item.attachments drill
  | Raised _ w' => w' = drill_world
  | Unmodelled => False
  end /\
  binds_twice ["self"; "item_id"] update_call = false /\
  exists item' w',
    handle_update_item demo_host update_call drill_world = Returned tt w' /\
    Dict.get "a" (items w') = Some item' /\
    forall key v,
      In (key, v) update_call -> Item.is_field key = true ->
      key <> "id" -> key <> "attachments" -> key <> "updated_at" ->
      Item.getattr item' key = Some v.
Proof.
  assert (W : Dict.wf update_call) by wf_by_computation.
  assert (P : plain_keys demo_host update_call = true) by reflexivity.
  split; [exact W|]. split; [exact P|]. split.
  - exact (proj1 (@handle_update_item_keeps_id demo_host drill_world
                    update_call W P) "a" drill eq_refl).
  - split; [reflexivity|].
    exact (proj2 (@handle_update_item_keeps_id demo_host drill_world
                    update_call W P) "a" drill eq_refl eq_refl eq_refl).
Defined.

Example handle_update_item_run :
  match handle_update_item demo_host update_call drill_world with
  | Returned _ w' =>
      option_map (fun it => (Item.id it, Item.quantity it,
                             List.length (Item.attachments it)))
                 (Dict.get "a" (items w'))
      = Some (VStr "a", VInt 2, 1)
  | _ => False
  end.
Proof. vm_compute. reflexivity. Qed.

(** C10 fails as stated: a key that names no field of [Item] makes the
    constructor raise [TypeError], and the stored record stays. *)
Lemma add_item_unknown_key_counterexample :
  ~ add_replaces demo_host drill_world bundle_with_unknown_key.
Proof.
  intros H.
  destruct (H "a" (VStr "Saw") drill eq_refl eq_refl eq_refl)
    as (item & w' & R & _).
  vm_compute in R. discriminate R.
Qed.

Example add_item_unknown_key_run :
  exists w',
    async_add_item demo_host bundle_with_unknown_key drill_world
    = Raised TypeError w' /\
    Dict.get "a" (items w') = Some drill.
Proof. eexists. split; vm_compute; reflexivity. Qed.

Lemma add_item_supplied_id_witness :
  unexpected Item.fields replacing_bundle = false /\
  Dict.get "name" replacing_bundle = Some (VStr "Saw") /\
  (exists item w',
     async_add_item demo_host replacing_bundle drill_world
     = Returned item w' /\
     Item.id item = VStr "a" /\ Item.name item = VStr "Saw" /\
     Item.attachments item = [] /\
     items w' = Dict.set "a" item (items drill_world) /\
     Dict.get "a" (items w') = Some item /\
     List.length (items w') = List.length (items drill_world) /\
     persisted w' = Some (document w')) /\
  unexpected Item.fields empty_id_bundle = false /\
  Dict.get "name" empty_id_bundle = Some (VStr "Saw") /\
  (let k := uuid_str (uuid4 demo_host (tick drill_world)) in
   exists item w',
     async_add_item demo_host empty_id_bundle drill_world
     = Returned item w' /\
     Item.id item = VStr k /\ Item.name item = VStr "Saw" /\
     items w' = Dict.set k item (items drill_world) /\
     persisted w' = Some (document w')).
Proof.
  assert (U : unexpected Item.fields replacing_bundle = false) by reflexivity.
  assert (Gn : Dict.get "name" replacing_bundle = Some (VStr "Saw"))
    by reflexivity.
  assert (N : "a" <> "") by discriminate.
  assert (U' : unexpected Item.fields empty_id_bundle = false) by reflexivity.
  assert (Gn' : Dict.get "name" empty_id_bundle = Some (VStr "Saw"))
    by reflexivity.
  split; [exact U|]. split; [exact Gn|]. split.
  - exact (proj1 (@add_item_supplied_id demo_host drill_world replacing_bundle
                    (VStr "Saw") U Gn) "a" drill eq_refl N eq_refl).
  - split; [exact U'|]. split; [exact Gn'|].
    exact (proj2 (@add_item_supplied_id demo_host drill_world empty_id_bundle
                    (VStr "Saw") U' Gn') eq_refl).
Defined.
